(** * run.py: the command dispatcher of azure-sparkle-portfolio

    A shallow embedding of [src/run.py] and the properties of its
    dispatch logic.  The script reads [sys.argv], prints to standard
    output and starts at most one child process through
    [subprocess.run]; both effects are recorded, in order, in a log of
    events, and exceptions are kept apart from returned values.  A
    second reading of the script keeps its dict and lists as objects in
    a heap, to follow what happens to the command table. *)

From Stdlib Require Import NArith ZArith List String Ascii Bool Lia.
Import ListNotations.

(** ** The fragment of the Python runtime the script uses *)

Module Py.

(** A Python [str] is a sequence of Unicode code points. *)
Definition codepoint := N.
Definition str := list codepoint.

(** String literals of the source, all of them ASCII. *)
Definition lit (x : string) : str := map N_of_ascii (list_ascii_of_string x).

Fixpoint str_eqb (a b : str) : bool :=
  match a, b with
  | [], [] => true
  | x :: a', y :: b' => N.eqb x y && str_eqb a' b'
  | _, _ => false
  end.

(** [sep.join(parts)] *)
Fixpoint join (sep : str) (parts : list str) : str :=
  match parts with
  | [] => []
  | [p] => p
  | p :: rest => p ++ sep ++ join sep rest
  end.

(** [needle in hay] on strings: [needle] occurs as a contiguous run. *)
Definition includes (hay needle : str) : Prop :=
  exists before after, hay = before ++ needle ++ after.

(** [str.lower]: CPython lowers an all-ASCII string byte by byte
    ([Py_TOLOWER]); any other string goes through the interpreter's
    Unicode database ([case_operation] with [do_lower]), which does not
    belong to this repository and is taken as a parameter. *)
Definition Py_TOLOWER (c : codepoint) : codepoint :=
  if (65 <=? c)%N && (c <=? 90)%N then (c + 32)%N else c.

Definition is_ascii (c : codepoint) : bool := (c <? 128)%N.

Definition PyUnicode_IS_ASCII (x : str) : bool := forallb is_ascii x.

Definition lower (case_operation : str -> str) (x : str) : str :=
  if PyUnicode_IS_ASCII x then map Py_TOLOWER x else case_operation x.

(** Exceptions that can surface in the script.  [host_error] stands for
    an exception that [subprocess.run] itself raises (an [OSError] when
    the shell or the working directory is missing, say); a command that
    the shell cannot find is not one: the shell then returns 127. *)
Inductive host_error : Type :=
  | OSError (errno : Z).

Inductive exn : Type :=
  | IndexError
  | KeyError (key : str)
  | HostFailure (e : host_error)
  | SystemExit (code : Z).

Inductive result (A : Type) : Type :=
  | Return (a : A)
  | Raise (e : exn).
Arguments Return {A} a.
Arguments Raise {A} e.

(** Observable effects, in program order. *)
Inductive event : Type :=
  | Stdout (text : str)
  | Spawn (args : list str) (cwd : option str) (shell : bool).

(** A computation yields the events it performed and how it ended. *)
Definition M (A : Type) : Type := (list event * result A)%type.

Definition ret {A} (a : A) : M A := ([], Return a).

Definition raise {A} (e : exn) : M A := ([], Raise e).

Definition bind {A B} (m : M A) (k : A -> M B) : M B :=
  match m with
  | (log, Return a) => let (log', r) := k a in (log ++ log', r)
  | (log, Raise e) => (log, Raise e)
  end.

Notation "x <- m ;; k" := (bind m (fun x => k))
  (at level 61, m at next level, right associativity).
Notation "m ;; k" := (bind m (fun _ => k))
  (at level 61, right associativity).

(** [for x in xs: body(x)] *)
Fixpoint for_each {A} (xs : list A) (body : A -> M unit) : M unit :=
  match xs with
  | [] => ret tt
  | x :: xs' => body x ;; for_each xs' body
  end.

(** [print(x)] writes [x] and a newline to standard output. *)
Definition newline : str := [10%N].

Definition print (x : str) : M unit := ([Stdout (x ++ newline)], Return tt).

(** [xs[i]] on a list *)
Definition list_getitem {A} (xs : list A) (i : nat) : M A :=
  match nth_error xs i with
  | Some x => ret x
  | None => raise IndexError
  end.

(** A [dict] keeps its keys in insertion order; assigning to a key that
    is present replaces the value in place. *)
Definition dict (V : Type) : Type := list (str * V).

Fixpoint dict_setitem {V} (d : dict V) (k : str) (v : V) : dict V :=
  match d with
  | [] => [(k, v)]
  | (k', v') :: d' =>
      if str_eqb k' k then (k', v) :: d' else (k', v') :: dict_setitem d' k v
  end.

(** A dict display [{k1: v1, ..., kn: vn}] inserts its entries from left
    to right. *)
Definition dict_display {V} (entries : list (str * V)) : dict V :=
  fold_left (fun d kv => dict_setitem d (fst kv) (snd kv)) entries [].

Fixpoint dict_get {V} (d : dict V) (k : str) : option V :=
  match d with
  | [] => None
  | (k', v) :: d' => if str_eqb k' k then Some v else dict_get d' k
  end.

(** [k in d] *)
Definition dict_contains {V} (d : dict V) (k : str) : bool :=
  match dict_get d k with Some _ => true | None => false end.

(** [d[k]] *)
Definition dict_getitem {V} (d : dict V) (k : str) : M V :=
  match dict_get d k with
  | Some v => ret v
  | None => raise (KeyError k)
  end.

(** Iterating a dict yields its keys. *)
Definition dict_iter {V} (d : dict V) : list str := map fst d.

(** [subprocess.CompletedProcess] *)
Record CompletedProcess : Type := {
  args : list str;
  returncode : Z
}.

(** [sys.exit(code)] *)
Definition sys_exit {A} (code : Z) : M A := raise (SystemExit code).

(** What was written to standard output, and which children were
    started. *)
Fixpoint stdout (log : list event) : str :=
  match log with
  | [] => []
  | Stdout text :: log' => text ++ stdout log'
  | Spawn _ _ _ :: log' => stdout log'
  end.

Fixpoint children (log : list event) : list event :=
  match log with
  | [] => []
  | Stdout _ :: log' => children log'
  | Spawn a c s :: log' => Spawn a c s :: children log'
  end.

End Py.

Import Py.

(** ** Mutable objects

    The dict bound to [commands] and the lists that are its values are
    mutable objects: a variable or a dict entry holds a reference to
    them, and [commands[command]] hands the very list of the table to
    [run_command].  Objects live in a heap, a reference is an address. *)

Module PyHeap.

Definition addr := nat.

Inductive object : Type :=
  | ListObject (items : list str)
  | DictObject (entries : dict addr).

Definition heap := list object.

(** A computation on the heap yields the heap it leaves and, as before,
    its events and its result; [None] stands for the use of a reference
    that is not of the expected kind, which no Python program can
    make. *)
Definition HeapM (A : Type) : Type := heap -> option (heap * M A).

Definition retH {A} (a : A) : HeapM A := fun h => Some (h, ret a).

(** A computation that does not touch the heap. *)
Definition lift {A} (m : M A) : HeapM A := fun h => Some (h, m).

Definition bindH {A B} (m : HeapM A) (k : A -> HeapM B) : HeapM B :=
  fun h =>
    match m h with
    | None => None
    | Some (h1, (log, Return a)) =>
        match k a h1 with
        | None => None
        | Some (h2, (log', r)) => Some (h2, (log ++ log', r))
        end
    | Some (h1, (log, Raise e)) => Some (h1, (log, Raise e))
    end.

Notation "x <~ m ;; k" := (bindH m (fun x => k))
  (at level 61, m at next level, right associativity).
Notation "m ~;; k" := (bindH m (fun _ => k))
  (at level 61, right associativity).

(** A new object, at the first free address. *)
Definition alloc (o : object) : HeapM addr :=
  fun h => Some (h ++ [o], ret (List.length h)).

(** Replacing the object at an address. *)
Fixpoint heap_set (h : heap) (a : addr) (o : object) : option heap :=
  match h, a with
  | [], _ => None
  | _ :: h', O => Some (o :: h')
  | x :: h', S a' =>
      match heap_set h' a' o with
      | Some h'' => Some (x :: h'')
      | None => None
      end
  end.

Definition load_list (a : addr) : HeapM (list str) :=
  fun h =>
    match nth_error h a with
    | Some (ListObject items) => Some (h, ret items)
    | _ => None
    end.

Definition load_dict (a : addr) : HeapM (dict addr) :=
  fun h =>
    match nth_error h a with
    | Some (DictObject entries) => Some (h, ret entries)
    | _ => None
    end.

(** [[x1, ..., xn]]: a list display makes a new list object. *)
Definition list_display (items : list str) : HeapM addr :=
  alloc (ListObject items).

(** [d[k] = v]: the one operation here that changes an object. *)
Definition dict_setitem_ref (d : addr) (k : str) (v : addr) : HeapM unit :=
  fun h =>
    match nth_error h d with
    | Some (DictObject entries) =>
        match heap_set h d (DictObject (dict_setitem entries k v)) with
        | Some h' => Some (h', ret tt)
        | None => None
        end
    | _ => None
    end.

(** [{k1: [...], ..., kn: [...]}]: a dict display makes a new dict
    object; its items are evaluated from left to right and each value
    is stored under its key. *)
Fixpoint store_items (d : addr) (items : list (str * list str)) : HeapM unit :=
  match items with
  | [] => retH tt
  | (k, tokens) :: rest =>
      v <~ list_display tokens ;;
      dict_setitem_ref d k v ~;;
      store_items d rest
  end.

Definition dict_display_ref (items : list (str * list str)) : HeapM addr :=
  d <~ alloc (DictObject []) ;;
  store_items d items ~;;
  retH d.

(** [for k in d], [k in d] and [d[k]] read the dict object. *)
Definition dict_iter_ref (d : addr) : HeapM (list str) :=
  entries <~ load_dict d ;;
  retH (dict_iter entries).

Definition dict_contains_ref (d : addr) (k : str) : HeapM bool :=
  entries <~ load_dict d ;;
  retH (dict_contains entries k).

Definition dict_getitem_ref (d : addr) (k : str) : HeapM addr :=
  entries <~ load_dict d ;;
  lift (dict_getitem entries k).

(** The value of a dict object, with the lists its entries refer to. *)
Definition deref_list (h : heap) (a : addr) : option (list str) :=
  match nth_error h a with
  | Some (ListObject items) => Some items
  | _ => None
  end.

Fixpoint deref_entries (h : heap) (entries : dict addr) : option (dict (list str)) :=
  match entries with
  | [] => Some []
  | (k, a) :: rest =>
      match deref_list h a, deref_entries h rest with
      | Some items, Some rest' => Some ((k, items) :: rest')
      | _, _ => None
      end
  end.

Definition deref_dict (h : heap) (d : addr) : option (dict (list str)) :=
  match nth_error h d with
  | Some (DictObject entries) => deref_entries h entries
  | _ => None
  end.

End PyHeap.

Import PyHeap.

(** ** The script *)

Definition __doc__ : str := lit "
Azure Sparkle Portfolio - Application Entry Point

This script provides a convenient entry point for running common development tasks.
For a Node.js project like this, it acts as a wrapper around npm commands.

Usage:
    python run.py dev        # Start development server
    python run.py build      # Build for production
    python run.py test       # Run tests
    python run.py lint       # Run linter
    python run.py format     # Format code
    python run.py install    # Install dependencies
    python run.py help       # Show this help message
".

(** A concrete host, used to run the script on examples: case mapping
    restricted to ASCII, the script installed as [/srv/portfolio/run.py],
    and every child leaving with the exit status [Demo.status]. *)
Module Demo.

Definition case_operation (x : str) : str := map Py_TOLOWER x.
Definition file : str := lit "/srv/portfolio/run.py".
Definition abspath (p : str) : str := p.
Definition dirname (p : str) : str := lit "/srv/portfolio".
Definition status : Z := 127%Z.
Definition run (command : list str) (cwd : option str) (shell : bool)
  : Z + host_error := inl status.

(** A host on which [subprocess.run] raises [OSError] with errno 2
    (ENOENT), as it does when the working directory is gone. *)
Definition broken_run (command : list str) (cwd : option str) (shell : bool)
  : Z + host_error := inr (OSError 2%Z).

End Demo.

Section Run.

(** The host: Unicode case mapping of non-ASCII text, the path of the
    script and the [os.path] functions applied to it, and what running
    a child process yields (its return code, or the exception that
    [subprocess.run] raised). *)
Variable case_operation : str -> str.
Variable __file__ : str.
Variable os_path_abspath : str -> str.
Variable os_path_dirname : str -> str.
Variable host_run : list str -> option str -> bool -> Z + host_error.

(** [subprocess.run(command, cwd=cwd, shell=shell)] *)
Definition subprocess_run (command : list str) (cwd : option str) (shell : bool)
  : M CompletedProcess :=
  ([Spawn command cwd shell],
   match host_run command cwd shell with
   | inl rc => Return {| args := command; returncode := rc |}
   | inr e => Raise (HostFailure e)
   end).

Definition run_command (command : list str) (cwd : option str) : M Z :=
  print (lit "Running: " ++ join (lit " ") command) ;;
  result <- subprocess_run command cwd true ;;
  ret (returncode result).

(** The dict display bound to [commands] in [main]; it does not depend on
    the arguments, so the table is a constant. *)
Definition commands_display : list (str * list str) :=
  [ (lit "dev", [lit "npm"; lit "run"; lit "dev"]);
    (lit "build", [lit "npm"; lit "run"; lit "build"]);
    (lit "test", [lit "npm"; lit "run"; lit "test"]);
    (lit "test:coverage", [lit "npm"; lit "run"; lit "test:coverage"]);
    (lit "lint", [lit "npm"; lit "run"; lit "lint"]);
    (lit "format", [lit "npm"; lit "run"; lit "format"]);
    (lit "install", [lit "npm"; lit "install"]);
    (lit "start", [lit "npm"; lit "run"; lit "swa:start"]);
    (lit "preview", [lit "npm"; lit "run"; lit "preview"]) ].

Definition commands : dict (list str) := dict_display commands_display.

Definition is_help (command : str) : bool :=
  str_eqb command (lit "help") || str_eqb command (lit "--help")
  || str_eqb command (lit "-h").

Definition main (sys_argv : list str) : M Z :=
  if Nat.ltb (List.length sys_argv) 2 then
    print __doc__ ;;
    ret 0%Z
  else
    arg <- list_getitem sys_argv 1 ;;
    let command := lower case_operation arg in
    let project_dir := os_path_dirname (os_path_abspath __file__) in
    if is_help command then
      print __doc__ ;;
      print (lit "Available commands:") ;;
      for_each (dict_iter commands) (fun cmd => print (lit "  " ++ cmd)) ;;
      ret 0%Z
    else if dict_contains commands command then
      invocation <- dict_getitem commands command ;;
      run_command invocation (Some project_dir)
    else
      print (lit "Unknown command: " ++ command) ;;
      print (lit "Run 'python run.py help' for available commands.") ;;
      ret 1%Z.

(** [if __name__ == "__main__": sys.exit(main())] *)
Definition script (sys_argv : list str) : M False :=
  code <- main sys_argv ;;
  sys_exit code.

(** *** The script over the heap

    The same two functions with the table as an object: [commands]
    holds the address of the dict, and [run_command] receives the
    address of one of its lists, which [join] and [subprocess.run]
    read. *)
Definition run_command_ref (command : addr) (cwd : option str) : HeapM Z :=
  tokens <~ load_list command ;;
  lift (print (lit "Running: " ++ join (lit " ") tokens)) ~;;
  argv <~ load_list command ;;
  result <~ lift (subprocess_run argv cwd true) ;;
  retH (returncode result).

Definition main_ref (sys_argv : list str) : HeapM Z :=
  if Nat.ltb (List.length sys_argv) 2 then
    lift (print __doc__) ~;;
    retH 0%Z
  else
    arg <~ lift (list_getitem sys_argv 1) ;;
    let command := lower case_operation arg in
    let project_dir := os_path_dirname (os_path_abspath __file__) in
    commands <~ dict_display_ref commands_display ;;
    if is_help command then
      lift (print __doc__) ~;;
      lift (print (lit "Available commands:")) ~;;
      keys <~ dict_iter_ref commands ;;
      lift (for_each keys (fun cmd => print (lit "  " ++ cmd))) ~;;
      retH 0%Z
    else
      known <~ dict_contains_ref commands command ;;
      if known then
        invocation <~ dict_getitem_ref commands command ;;
        run_command_ref invocation (Some project_dir)
      else
        lift (print (lit "Unknown command: " ++ command)) ~;;
        lift (print (lit "Run 'python run.py help' for available commands.")) ~;;
        retH 1%Z.

(** *** Vocabulary of the statements *)

(** The directory that contains the script. *)
Definition project_dir : str := os_path_dirname (os_path_abspath __file__).

(** Two strings are equal up to case when they lower to the same string. *)
Definition same_up_to_case (a b : str) : Prop :=
  lower case_operation a = lower case_operation b.

(** The command names and the invocation documented for each. *)
Definition documented_mapping : list (str * list str) :=
  map (fun entry => (lit (fst entry), map lit (snd entry)))
    [ ("dev", ["npm"; "run"; "dev"]);
      ("build", ["npm"; "run"; "build"]);
      ("test", ["npm"; "run"; "test"]);
      ("test:coverage", ["npm"; "run"; "test:coverage"]);
      ("lint", ["npm"; "run"; "lint"]);
      ("format", ["npm"; "run"; "format"]);
      ("install", ["npm"; "install"]);
      ("start", ["npm"; "run"; "swa:start"]);
      ("preview", ["npm"; "run"; "preview"]) ]%string.

Definition help_aliases : list str := [lit "help"; lit "--help"; lit "-h"].

(** What the child invocation yields, as a result of [main]. *)
Definition child_result (invocation : list str) : result Z :=
  match host_run invocation (Some project_dir) true with
  | inl rc => Return rc
  | inr e => Raise (HostFailure e)
  end.

(** The events of the four branches of [main]. *)
Definition usage_log : list event := [Stdout (__doc__ ++ newline)].

Definition help_log : list event :=
  Stdout (__doc__ ++ newline)
  :: Stdout (lit "Available commands:" ++ newline)
  :: map (fun cmd => Stdout ((lit "  " ++ cmd) ++ newline)) (dict_iter commands).

Definition run_log (invocation : list str) : list event :=
  [ Stdout ((lit "Running: " ++ join (lit " ") invocation) ++ newline);
    Spawn invocation (Some project_dir) true ].

Definition unknown_log (command : str) : list event :=
  [ Stdout ((lit "Unknown command: " ++ command) ++ newline);
    Stdout (lit "Run 'python run.py help' for available commands." ++ newline) ].

(** The listing printed after the usage text by the help branch. *)
Definition command_listing : str := lit "Available commands:
  dev
  build
  test
  test:coverage
  lint
  format
  install
  start
  preview
".

(** The objects a dict display of [commands_display] adds to a heap of
    [base] objects: the dict, then the nine lists its entries refer to. *)
Definition table_objects (base : addr) : heap :=
  DictObject (combine (map fst commands_display) (seq (S base) 9))
  :: map ListObject (map snd commands_display).

(** A token without a space character. *)
Definition space_free (token : str) : Prop := ~ In 32%N token.

(** ** Facts about the runtime fragment *)

Lemma str_eqb_eq (a b : str) : str_eqb a b = true <-> a = b.
Proof.
  revert b; induction a as [|x a IH]; intros [|y b]; simpl;
    try (split; [discriminate | discriminate]); try tauto.
  rewrite andb_true_iff, N.eqb_eq, IH.
  split; [intros [-> ->]; reflexivity | intros E; injection E; auto].
Qed.

Lemma Py_TOLOWER_cases (c : codepoint) :
  (65 <= c <= 90 /\ Py_TOLOWER c = c + 32)%N \/ Py_TOLOWER c = c.
Proof.
  unfold Py_TOLOWER.
  destruct (N.leb_spec 65 c), (N.leb_spec c 90); cbn [andb]; auto.
Qed.

Lemma Py_TOLOWER_fixes (c : codepoint) :
  (90 < c)%N -> Py_TOLOWER c = c.
Proof.
  intros H. destruct (Py_TOLOWER_cases c) as [[? _]|E]; [lia | exact E].
Qed.

Lemma Py_TOLOWER_idempotent (c : codepoint) :
  Py_TOLOWER (Py_TOLOWER c) = Py_TOLOWER c.
Proof.
  destruct (Py_TOLOWER_cases c) as [[Hc E]|E]; rewrite E; [|exact E].
  apply Py_TOLOWER_fixes. lia.
Qed.

Lemma Py_TOLOWER_is_ascii (c : codepoint) :
  is_ascii (Py_TOLOWER c) = is_ascii c.
Proof.
  destruct (Py_TOLOWER_cases c) as [[Hc E]|E]; rewrite E; [|reflexivity].
  unfold is_ascii.
  destruct (N.ltb_spec (c + 32) 128), (N.ltb_spec c 128); try reflexivity; lia.
Qed.

Lemma map_Py_TOLOWER_is_ascii (x : str) :
  PyUnicode_IS_ASCII (map Py_TOLOWER x) = PyUnicode_IS_ASCII x.
Proof.
  induction x as [|c x IH]; [reflexivity|].
  cbn [map PyUnicode_IS_ASCII forallb] in *.
  rewrite Py_TOLOWER_is_ascii. f_equal. exact IH.
Qed.

Lemma map_Py_TOLOWER_idempotent (x : str) :
  map Py_TOLOWER (map Py_TOLOWER x) = map Py_TOLOWER x.
Proof.
  induction x as [|c x IH]; [reflexivity|].
  cbn [map]. rewrite Py_TOLOWER_idempotent, IH. reflexivity.
Qed.

(** Lowering an all-ASCII string twice is lowering it once, whatever the
    Unicode tables say. *)
Lemma lower_ascii_idempotent (x : str) :
  PyUnicode_IS_ASCII x = true ->
  lower case_operation (lower case_operation x) = lower case_operation x.
Proof.
  intros Hx. unfold lower. rewrite Hx, map_Py_TOLOWER_is_ascii, Hx.
  apply map_Py_TOLOWER_idempotent.
Qed.

Lemma dict_get_In {V} (d : dict V) (k : str) (v : V) :
  dict_get d k = Some v -> In (k, v) d.
Proof.
  induction d as [|[k' v'] d IH]; cbn [dict_get]; [discriminate|].
  destruct (str_eqb k' k) eqn:E.
  - apply str_eqb_eq in E. intros [= ->]. subst. left; reflexivity.
  - intros H. right. auto.
Qed.

Lemma dict_contains_false {V} (d : dict V) (k : str) :
  dict_contains d k = false -> dict_get d k = None.
Proof.
  unfold dict_contains. destruct (dict_get d k); [discriminate | reflexivity].
Qed.

Lemma for_each_print {A} (f : A -> str) (xs : list A) :
  for_each xs (fun x => print (f x))
  = (map (fun x => Stdout (f x ++ newline)) xs, Return tt).
Proof.
  induction xs as [|x xs IH]; [reflexivity|].
  cbn [for_each map]. rewrite IH. reflexivity.
Qed.

Lemma includes_In (hay needle : str) (c : codepoint) :
  includes hay needle -> In c needle -> In c hay.
Proof.
  intros (before & after & ->) Hc.
  apply in_or_app; right. apply in_or_app; left. exact Hc.
Qed.

(** ** The four branches of [main] *)

Lemma commands_value : commands = commands_display.
Proof. reflexivity. Qed.

Lemma commands_keys_not_help (k : str) (v : list str) :
  In (k, v) commands -> is_help k = false.
Proof.
  rewrite commands_value. unfold commands_display.
  intros H. repeat (destruct H as [H|H]; [injection H as <- _; reflexivity|]).
  destruct H.
Qed.

Lemma main_no_argument (argv : list str) :
  List.length argv < 2 -> main argv = (usage_log, Return 0%Z).
Proof.
  intros H. unfold main.
  apply Nat.ltb_lt in H. rewrite H. reflexivity.
Qed.

Lemma main_help (argv : list str) (arg : str) :
  nth_error argv 1 = Some arg ->
  is_help (lower case_operation arg) = true ->
  main argv = (help_log, Return 0%Z).
Proof.
  intros Harg Hhelp.
  destruct argv as [|argv0 [|arg' rest]]; try discriminate.
  injection Harg as ->.
  unfold main. cbn [List.length Nat.ltb Nat.leb list_getitem nth_error].
  unfold bind at 1. cbn [ret]. rewrite Hhelp.
  rewrite (for_each_print (fun cmd => lit "  " ++ cmd)).
  reflexivity.
Qed.

Lemma main_known (argv : list str) (arg : str) (invocation : list str) :
  nth_error argv 1 = Some arg ->
  dict_get commands (lower case_operation arg) = Some invocation ->
  main argv = (run_log invocation, child_result invocation).
Proof.
  intros Harg Hget.
  pose proof (commands_keys_not_help _ _ (dict_get_In _ _ _ Hget)) as Hhelp.
  destruct argv as [|argv0 [|arg' rest]]; try discriminate.
  injection Harg as ->.
  unfold main. cbn [List.length Nat.ltb Nat.leb list_getitem nth_error].
  unfold bind at 1. cbn [ret]. rewrite Hhelp.
  unfold dict_contains, dict_getitem. rewrite Hget.
  unfold run_log, child_result, project_dir.
  cbv [bind ret print run_command subprocess_run].
  destruct (host_run invocation _ true); reflexivity.
Qed.

Lemma main_unknown (argv : list str) (arg : str) :
  nth_error argv 1 = Some arg ->
  is_help (lower case_operation arg) = false ->
  dict_contains commands (lower case_operation arg) = false ->
  main argv = (unknown_log (lower case_operation arg), Return 1%Z).
Proof.
  intros Harg Hhelp Hin.
  destruct argv as [|argv0 [|arg' rest]]; try discriminate.
  injection Harg as ->.
  unfold main. cbn [List.length Nat.ltb Nat.leb list_getitem nth_error].
  unfold bind at 1. cbn [ret]. rewrite Hhelp, Hin.
  reflexivity.
Qed.

(** [main] looks at its second argument only through [lower]. *)
Lemma main_depends_on_lowered_argument (argv argv' : list str) (arg arg' : str) :
  nth_error argv 1 = Some arg ->
  nth_error argv' 1 = Some arg' ->
  lower case_operation arg = lower case_operation arg' ->
  main argv = main argv'.
Proof.
  intros H H' E.
  destruct argv as [|argv0 [|a rest]]; try discriminate.
  destruct argv' as [|argv0' [|a' rest']]; try discriminate.
  injection H as ->. injection H' as ->.
  unfold main. cbn [List.length Nat.ltb Nat.leb list_getitem nth_error].
  unfold bind at 1 3. cbn [ret]. rewrite E. reflexivity.
Qed.

Lemma nth_error_1_None {A} (xs : list A) :
  nth_error xs 1 = None -> List.length xs < 2.
Proof. destruct xs as [|x [|y xs]]; cbn; [lia | lia | discriminate]. Qed.

(** ** The properties of the dispatcher *)

(** C1. For each supported command name (dev, build, test,
    test:coverage, lint, format, install, start, preview), running the
    dispatcher with that name as first argument starts exactly one child
    process; its token sequence is the documented one, and its working
    directory is the directory that contains the script. *)
Theorem known_command_starts_documented_invocation
    (argv0 name : str) (tokens : list str) (rest : list str) :
  In (name, tokens) documented_mapping ->
  children (fst (main (argv0 :: name :: rest)))
  = [Spawn tokens (Some project_dir) true].
Proof.
  intros H. unfold documented_mapping in H. cbn [map fst snd] in H.
  repeat (destruct H as [H|H];
    [injection H as <- <-;
     match goal with
     | |- context [main (?a0 :: ?a1 :: ?r)] =>
         rewrite (main_known (a0 :: a1 :: r) a1 _ eq_refl eq_refl)
     end; reflexivity|]).
  destruct H.
Qed.

(** C2. Whenever a known command is dispatched and its child process
    leaves with exit code [rc], [main] returns [rc] unchanged and the
    script exits with [rc], whatever [rc] is. *)
Theorem child_exit_code_passed_through
    (argv : list str) (arg : str) (invocation : list str) (rc : Z) :
  nth_error argv 1 = Some arg ->
  dict_get commands (lower case_operation arg) = Some invocation ->
  host_run invocation (Some project_dir) true = inl rc ->
  snd (main argv) = Return rc /\ snd (script argv) = Raise (SystemExit rc).
Proof.
  intros Harg Hget Hrun.
  unfold script. rewrite (main_known _ _ _ Harg Hget).
  unfold child_result. rewrite Hrun. split; reflexivity.
Qed.

(** C3, amended. For every argument that, once lowered, is neither a
    key of the table nor a help alias, the dispatcher prints an error
    message that includes the lowered form of the argument (the argument
    itself when lowering leaves it unchanged), prints the hint to run
    help, returns 1 and starts no child process. *)
Theorem unknown_command_reported_lowered (argv : list str) (arg : str) :
  nth_error argv 1 = Some arg ->
  is_help (lower case_operation arg) = false ->
  dict_contains commands (lower case_operation arg) = false ->
  main argv
  = ([ Stdout ((lit "Unknown command: " ++ lower case_operation arg) ++ newline);
       Stdout (lit "Run 'python run.py help' for available commands." ++ newline) ],
     Return 1%Z)
  /\ includes (stdout (fst (main argv))) (lower case_operation arg)
  /\ (lower case_operation arg = arg -> includes (stdout (fst (main argv))) arg)
  /\ children (fst (main argv)) = [].
Proof.
  intros Harg Hhelp Hin.
  rewrite (main_unknown _ _ Harg Hhelp Hin).
  assert (Hinc : includes (stdout (fst (unknown_log (lower case_operation arg), Return 1%Z)))
                   (lower case_operation arg)).
  { exists (lit "Unknown command: ").
    eexists. cbn [fst unknown_log stdout].
    rewrite <- !app_assoc. reflexivity. }
  split; [reflexivity|]. split; [exact Hinc|]. split; [|reflexivity].
  intros E. rewrite E in Hinc |- *. exact Hinc.
Qed.

(** C4. For every argument equal up to case to "help", "--help" or
    "-h", the dispatcher prints the usage text, then the heading and
    every key of the table, one per line and in table order, returns 0
    and starts no child process. *)
Theorem help_prints_usage_and_commands (argv : list str) (arg alias : str) :
  nth_error argv 1 = Some arg ->
  In alias help_aliases ->
  same_up_to_case arg alias ->
  main argv
  = (Stdout (__doc__ ++ newline)
     :: Stdout (lit "Available commands:" ++ newline)
     :: map (fun cmd => Stdout ((lit "  " ++ cmd) ++ newline)) (dict_iter commands),
     Return 0%Z)
  /\ stdout (fst (main argv)) = __doc__ ++ newline ++ command_listing
  /\ children (fst (main argv)) = [].
Proof.
  intros Harg Halias Hcase. unfold same_up_to_case in Hcase.
  assert (Hhelp : is_help (lower case_operation arg) = true).
  { rewrite Hcase. unfold help_aliases in Halias.
    repeat (destruct Halias as [<-|Halias]; [reflexivity|]). destruct Halias. }
  rewrite (main_help _ _ Harg Hhelp).
  repeat split; reflexivity.
Qed.

(** C5. With no argument after the program name, the dispatcher prints
    the usage text to standard output, returns 0 and starts no child
    process. *)
Theorem no_argument_prints_usage (argv : list str) :
  List.length argv < 2 ->
  main argv = ([Stdout (__doc__ ++ newline)], Return 0%Z)
  /\ stdout (fst (main argv)) = __doc__ ++ newline
  /\ children (fst (main argv)) = [].
Proof.
  intros H. rewrite (main_no_argument _ H).
  split; [reflexivity|]. split; [|reflexivity].
  cbn [fst usage_log stdout]. apply app_nil_r.
Qed.

(** C7. For every known command, the dispatcher prints exactly one
    line before it starts the child: the program name and its arguments
    joined by single spaces, after the prefix "Running: ". *)
Theorem invocation_echoed_before_run
    (argv : list str) (arg : str) (invocation : list str) :
  nth_error argv 1 = Some arg ->
  dict_get commands (lower case_operation arg) = Some invocation ->
  fst (main argv)
  = [ Stdout ((lit "Running: " ++ join (lit " ") invocation) ++ newline);
      Spawn invocation (Some project_dir) true ]
  /\ ~ In 10%N (lit "Running: " ++ join (lit " ") invocation).
Proof.
  intros Harg Hget.
  rewrite (main_known _ _ _ Harg Hget). split; [reflexivity|].
  apply dict_get_In in Hget. revert Hget.
  generalize (lower case_operation arg). intros k Hk.
  rewrite commands_value in Hk. unfold commands_display in Hk.
  repeat (destruct Hk as [Hk|Hk];
    [injection Hk as _ <-; vm_compute; intros Hc;
     repeat (destruct Hc as [Hc|Hc]; [discriminate Hc|]); exact Hc|]).
  destruct Hk.
Qed.

(** The table as a value: the dict display holds its nine entries as
    written, no key occurs twice, and every value is a non-empty token
    sequence starting with "npm". *)
Lemma command_table_shape :
  commands = commands_display
  /\ List.length commands = 9
  /\ NoDup (dict_iter commands)
  /\ Forall (fun entry => snd entry <> [] /\ hd_error (snd entry) = Some (lit "npm"))
       commands.
Proof.
  split; [reflexivity|]. split; [reflexivity|]. split.
  - rewrite commands_value. unfold commands_display, dict_iter. cbn [map fst].
    repeat (constructor;
      [intros H; repeat (destruct H as [H|H]; [discriminate H|]); exact H|]).
    constructor.
  - rewrite commands_value. unfold commands_display.
    repeat (constructor; [split; [discriminate | reflexivity]|]).
    constructor.
Qed.

(** C9. Arguments after the first are ignored: two argument lists with
    the same first user-supplied argument (or both without one) give the
    same events and the same result under the same host, and the tokens
    of a started child are always a value of the table, to which nothing
    is appended. *)
Theorem later_arguments_ignored (argv argv' : list str) :
  nth_error argv 1 = nth_error argv' 1 ->
  main argv = main argv'
  /\ forall tokens cwd shell,
       In (Spawn tokens cwd shell) (fst (main argv)) ->
       In tokens (map snd commands).
Proof.
  intros H. split.
  - destruct (nth_error argv 1) as [arg|] eqn:E.
    + apply (main_depends_on_lowered_argument _ _ arg arg); auto.
    + rewrite (main_no_argument argv), (main_no_argument argv');
        auto using nth_error_1_None.
  - intros tokens cwd shell.
    destruct (nth_error argv 1) as [arg|] eqn:E.
    + destruct (is_help (lower case_operation arg)) eqn:Hhelp.
      * rewrite (main_help _ _ E Hhelp). intros Hin.
        destruct Hin as [Hin|[Hin|Hin]]; try discriminate.
        apply in_map_iff in Hin. destruct Hin as (? & ? & _). discriminate.
      * destruct (dict_get commands (lower case_operation arg)) as [inv|] eqn:Hget.
        -- rewrite (main_known _ _ _ E Hget).
           intros [Hin|[Hin|[]]]; [discriminate|].
           injection Hin as <- _ _.
           apply dict_get_In in Hget.
           apply in_map_iff. exists (lower case_operation arg, inv). auto.
        -- rewrite (main_unknown _ _ E Hhelp).
           ++ intros [Hin|[Hin|[]]]; discriminate.
           ++ unfold dict_contains. rewrite Hget. reflexivity.
    + rewrite (main_no_argument argv) by auto using nth_error_1_None.
      intros [Hin|[]]; discriminate.
Qed.

(** C10. [main] is a total function of the argument list.  It returns
    0 (no argument, or a help alias), 1 (unrecognised command) or what
    the child invocation yields (known command); it never raises
    [IndexError] or [KeyError] and never exits by itself, and each of
    the four branches is taken by some argument list. *)
Theorem main_total_and_classified :
  (forall argv : list str,
      (List.length argv < 2 /\ main argv = (usage_log, Return 0%Z))
      \/ (exists arg, nth_error argv 1 = Some arg
            /\ is_help (lower case_operation arg) = true
            /\ main argv = (help_log, Return 0%Z))
      \/ (exists arg invocation, nth_error argv 1 = Some arg
            /\ dict_get commands (lower case_operation arg) = Some invocation
            /\ main argv = (run_log invocation, child_result invocation))
      \/ (exists arg, nth_error argv 1 = Some arg
            /\ is_help (lower case_operation arg) = false
            /\ dict_contains commands (lower case_operation arg) = false
            /\ main argv = (unknown_log (lower case_operation arg), Return 1%Z)))
  /\ (forall (argv : list str) (e : exn),
        snd (main argv) = Raise e ->
        exists invocation err,
          e = HostFailure err
          /\ In invocation (map snd commands)
          /\ host_run invocation (Some project_dir) true = inr err)
  /\ main [lit "run.py"] = (usage_log, Return 0%Z)
  /\ main [lit "run.py"; lit "help"] = (help_log, Return 0%Z)
  /\ main [lit "run.py"; lit "build"]
     = (run_log [lit "npm"; lit "run"; lit "build"],
        child_result [lit "npm"; lit "run"; lit "build"])
  /\ main [lit "run.py"; lit "frobnicate"]
     = (unknown_log (lit "frobnicate"), Return 1%Z).
Proof.
  assert (Hcases : forall argv : list str,
      (List.length argv < 2 /\ main argv = (usage_log, Return 0%Z))
      \/ (exists arg, nth_error argv 1 = Some arg
            /\ is_help (lower case_operation arg) = true
            /\ main argv = (help_log, Return 0%Z))
      \/ (exists arg invocation, nth_error argv 1 = Some arg
            /\ dict_get commands (lower case_operation arg) = Some invocation
            /\ main argv = (run_log invocation, child_result invocation))
      \/ (exists arg, nth_error argv 1 = Some arg
            /\ is_help (lower case_operation arg) = false
            /\ dict_contains commands (lower case_operation arg) = false
            /\ main argv = (unknown_log (lower case_operation arg), Return 1%Z))).
  { intros argv.
    destruct (nth_error argv 1) as [arg|] eqn:E.
    - right.
      destruct (is_help (lower case_operation arg)) eqn:Hhelp.
      + left. exists arg.
        split; [reflexivity|]. split; [exact Hhelp|]. exact (main_help _ _ E Hhelp).
      + right.
        destruct (dict_get commands (lower case_operation arg)) as [inv|] eqn:Hget.
        * left. exists arg, inv.
          split; [reflexivity|]. split; [exact Hget|]. exact (main_known _ _ _ E Hget).
        * right. exists arg.
          assert (Hin : dict_contains commands (lower case_operation arg) = false)
            by (unfold dict_contains; rewrite Hget; reflexivity).
          split; [reflexivity|]. split; [exact Hhelp|]. split; [exact Hin|].
          exact (main_unknown _ _ E Hhelp Hin).
    - left. apply nth_error_1_None in E. split; [exact E|].
      exact (main_no_argument _ E). }
  split; [exact Hcases|]. split.
  - intros argv e.
    destruct (Hcases argv) as [[_ ->]|[(arg & _ & _ & ->)|[(arg & inv & _ & Hget & ->)|(arg & _ & _ & _ & ->)]]];
      cbn [snd]; try discriminate.
    unfold child_result.
    destruct (host_run inv (Some project_dir) true) as [rc|err] eqn:Hrun;
      [discriminate|].
    intros [= <-]. exists inv, err.
    apply dict_get_In in Hget.
    repeat split; auto.
    apply in_map_iff. exists (lower case_operation arg, inv). auto.
  - split; [apply main_no_argument; cbn [List.length]; lia|].
    split; [apply (main_help _ (lit "help")); reflexivity|].
    split; [apply (main_known _ (lit "build")); reflexivity|].
    apply (main_unknown _ (lit "frobnicate")); reflexivity.
Qed.

Section CaseInsensitive.

(** The interpreter's Unicode tables lower text to text that lowering
    leaves alone. *)
Hypothesis case_operation_stable :
  forall x : str,
    PyUnicode_IS_ASCII x = false ->
    lower case_operation (case_operation x) = case_operation x.

Lemma lower_idempotent (x : str) :
  lower case_operation (lower case_operation x) = lower case_operation x.
Proof.
  destruct (PyUnicode_IS_ASCII x) eqn:Hx.
  - apply lower_ascii_idempotent, Hx.
  - unfold lower at 2 3. rewrite Hx. apply case_operation_stable, Hx.
Qed.

(** C6. Matching is case-insensitive: on every argument the dispatcher
    does what it does on the lowered argument (same branch, same events,
    same invocation, same result). *)
Theorem matching_is_case_insensitive (argv0 arg : str) (rest : list str) :
  main (argv0 :: arg :: rest) = main (argv0 :: lower case_operation arg :: rest).
Proof.
  apply (main_depends_on_lowered_argument _ _ arg (lower case_operation arg));
    try reflexivity.
  symmetry. apply lower_idempotent.
Qed.

End CaseInsensitive.

(** ** Further properties of the script *)

(** [main] as one equation over its four branches. *)
Lemma main_spec (argv : list str) :
  main argv
  = match nth_error argv 1 with
    | None => (usage_log, Return 0%Z)
    | Some arg =>
        if is_help (lower case_operation arg) then (help_log, Return 0%Z)
        else match dict_get commands (lower case_operation arg) with
             | Some invocation => (run_log invocation, child_result invocation)
             | None => (unknown_log (lower case_operation arg), Return 1%Z)
             end
    end.
Proof.
  destruct (nth_error argv 1) as [arg|] eqn:E.
  - destruct (is_help (lower case_operation arg)) eqn:Hhelp.
    + exact (main_help _ _ E Hhelp).
    + destruct (dict_get commands (lower case_operation arg)) as [inv|] eqn:Hget.
      * exact (main_known _ _ _ E Hget).
      * apply (main_unknown _ _ E Hhelp).
        unfold dict_contains. rewrite Hget. reflexivity.
  - apply main_no_argument, nth_error_1_None, E.
Qed.

(** [sys.exit] turns the value returned by [main] into the exit status
    and lets an exception through; it adds no event. *)
Lemma script_spec (argv : list str) :
  script argv
  = (fst (main argv),
     match snd (main argv) with
     | Return code => Raise (SystemExit code)
     | Raise e => Raise e
     end).
Proof.
  unfold script. destruct (main argv) as [log [code|e]]; cbn [bind sys_exit raise fst snd].
  - rewrite app_nil_r. reflexivity.
  - reflexivity.
Qed.

Lemma str_eqb_refl (a : str) : str_eqb a a = true.
Proof. apply str_eqb_eq. reflexivity. Qed.

Lemma dict_contains_iff {V} (d : dict V) (k : str) :
  dict_contains d k = true <-> In k (dict_iter d).
Proof.
  unfold dict_contains, dict_iter.
  induction d as [|[k' v] d IH]; cbn [dict_get map fst In].
  - split; [discriminate | tauto].
  - destruct (str_eqb k' k) eqn:E.
    + apply str_eqb_eq in E. split; auto.
    + rewrite IH. split; [auto|].
      intros [->|H]; [|exact H].
      rewrite str_eqb_refl in E. discriminate.
Qed.

Lemma split_at_first_space (p q r t : str) :
  space_free p -> space_free q ->
  p ++ 32%N :: r = q ++ 32%N :: t -> p = q /\ r = t.
Proof.
  revert q. induction p as [|c p IH]; intros [|c' q] Hp Hq E; cbn [app] in E.
  - injection E as ->. auto.
  - injection E as <- _. exfalso. apply Hq. left; reflexivity.
  - injection E as -> _. exfalso. apply Hp. left; reflexivity.
  - injection E as -> E.
    destruct (IH q) as [-> ->]; auto.
    + intros H. apply Hp. right; exact H.
    + intros H. apply Hq. right; exact H.
Qed.

Lemma space_free_has_no_space (p q t : str) :
  space_free p -> p <> q ++ 32%N :: t.
Proof.
  intros Hp ->. apply Hp. apply in_or_app. right. left. reflexivity.
Qed.

Lemma join_space_cons (p q : str) (rest : list str) :
  join (lit " ") (p :: q :: rest) = p ++ 32%N :: join (lit " ") (q :: rest).
Proof. reflexivity. Qed.

Lemma join_space_injective (xs ys : list str) :
  xs <> [] -> ys <> [] ->
  Forall space_free xs -> Forall space_free ys ->
  join (lit " ") xs = join (lit " ") ys -> xs = ys.
Proof.
  revert ys. induction xs as [|p xs IH]; intros ys Hx Hy Fx Fy E; [congruence|].
  destruct ys as [|q ys]; [congruence|].
  inversion Fx as [|? ? Hp Fx']; subst. inversion Fy as [|? ? Hq Fy']; subst.
  destruct xs as [|p' xs], ys as [|q' ys].
  - cbn [join] in E. congruence.
  - rewrite join_space_cons in E. cbn [join] in E.
    exfalso. exact (space_free_has_no_space _ _ _ Hp E).
  - rewrite join_space_cons in E. cbn [join] in E.
    exfalso. exact (space_free_has_no_space _ _ _ Hq (eq_sym E)).
  - rewrite !join_space_cons in E.
    destruct (split_at_first_space _ _ _ _ Hp Hq E) as [-> E'].
    f_equal. apply IH; auto; discriminate.
Qed.

(** X1. Whatever the arguments, the script performs exactly the events
    of [main] ([sys.exit] prints nothing and starts nothing), and among
    them at most one child process is started. *)
Theorem script_starts_at_most_one_child (argv : list str) :
  fst (script argv) = fst (main argv)
  /\ List.length (children (fst (script argv))) <= 1.
Proof.
  rewrite script_spec. cbn [fst]. split; [reflexivity|].
  rewrite main_spec.
  destruct (nth_error argv 1) as [arg|]; [|cbn; lia].
  destruct (is_help (lower case_operation arg)).
  - cbn [fst]. replace (children help_log) with (@nil event) by reflexivity.
    cbn; lia.
  - destruct (dict_get commands (lower case_operation arg)); cbn; lia.
Qed.

(** X2. A child process is started exactly when there is a first
    argument whose lowered form is a key of the table. *)
Theorem child_started_iff_known_command (argv : list str) :
  children (fst (main argv)) <> []
  <-> exists arg, nth_error argv 1 = Some arg
        /\ In (lower case_operation arg) (dict_iter commands).
Proof.
  rewrite main_spec. split.
  - destruct (nth_error argv 1) as [arg|]; [|intros H; exfalso; apply H; reflexivity].
    destruct (is_help (lower case_operation arg)) eqn:Hhelp;
      [intros H; exfalso; apply H; reflexivity|].
    destruct (dict_get commands (lower case_operation arg)) as [inv|] eqn:Hget;
      [|intros H; exfalso; apply H; reflexivity].
    intros _. exists arg. split; [reflexivity|].
    apply dict_contains_iff. unfold dict_contains. rewrite Hget. reflexivity.
  - intros (arg & -> & Hkey).
    apply dict_contains_iff in Hkey. unfold dict_contains in Hkey.
    destruct (dict_get commands (lower case_operation arg)) as [inv|] eqn:Hget;
      [|discriminate].
    rewrite (commands_keys_not_help _ _ (dict_get_In _ _ _ Hget)).
    cbn. discriminate.
Qed.

(** X3. Whenever [main] starts a child, for any argument list, the
    child runs through the shell in the directory of the script (never
    with the default [cwd=None] of [run_command]); it is the last event
    of the run and the only event before it is the line echoing its
    tokens. *)
Theorem child_runs_in_project_dir_after_echo
    (argv : list str) (tokens : list str) (cwd : option str) (shell : bool) :
  In (Spawn tokens cwd shell) (fst (main argv)) ->
  cwd = Some project_dir /\ shell = true
  /\ fst (main argv)
     = [ Stdout ((lit "Running: " ++ join (lit " ") tokens) ++ newline);
         Spawn tokens cwd shell ].
Proof.
  rewrite main_spec.
  destruct (nth_error argv 1) as [arg|].
  - destruct (is_help (lower case_operation arg)).
    + cbn [fst]. unfold help_log. intros [H|[H|H]]; try discriminate.
      apply in_map_iff in H. destruct H as (? & ? & _). discriminate.
    + destruct (dict_get commands (lower case_operation arg)) as [inv|].
      * cbn [fst]. unfold run_log. intros [H|[H|[]]]; [discriminate|].
        injection H as <- <- <-. auto.
      * cbn [fst]. unfold unknown_log. intros [H|[H|[]]]; discriminate.
  - cbn [fst]. unfold usage_log. intros [H|[]]. discriminate.
Qed.

(** X4. If [subprocess.run] itself raises for a known command, the
    script neither catches the exception nor exits with a status of its
    own: it ends with that exception, unchanged, after the echo line and
    the call.  (A program the shell cannot find is not this case: the
    shell returns 127, which is passed on as any other exit code.) *)
Theorem host_failure_surfaces_unchanged
    (argv : list str) (arg : str) (invocation : list str) (err : host_error) :
  nth_error argv 1 = Some arg ->
  dict_get commands (lower case_operation arg) = Some invocation ->
  host_run invocation (Some project_dir) true = inr err ->
  script argv = (run_log invocation, Raise (HostFailure err)).
Proof.
  intros Harg Hget Hrun.
  rewrite script_spec, (main_known _ _ _ Harg Hget).
  unfold child_result. rewrite Hrun. reflexivity.
Qed.

(** X5. The script exits with status 0 exactly in three situations: no
    argument, a help alias, or a known command whose child returned 0. *)
Theorem script_exits_zero_iff (argv : list str) :
  snd (script argv) = Raise (SystemExit 0%Z)
  <-> List.length argv < 2
      \/ exists arg, nth_error argv 1 = Some arg
           /\ (is_help (lower case_operation arg) = true
               \/ exists invocation,
                    dict_get commands (lower case_operation arg) = Some invocation
                    /\ host_run invocation (Some project_dir) true = inl 0%Z).
Proof.
  rewrite script_spec, main_spec. cbn [snd]. split.
  - destruct (nth_error argv 1) as [arg|] eqn:E;
      [|intros _; left; apply nth_error_1_None, E].
    intros H. right. exists arg. split; [reflexivity|].
    destruct (is_help (lower case_operation arg)); [left; reflexivity|].
    right.
    destruct (dict_get commands (lower case_operation arg)) as [inv|];
      [|discriminate H].
    exists inv. split; [reflexivity|].
    cbn [snd] in H. unfold child_result in H.
    destruct (host_run inv (Some project_dir) true) as [rc|err]; [|discriminate H].
    injection H as ->. reflexivity.
  - intros [Hlen|(arg & Harg & [Hhelp|(inv & Hget & Hrun)])].
    + destruct argv as [|a0 [|a1 rest]]; cbn [nth_error]; try reflexivity.
      cbn [List.length] in Hlen. lia.
    + rewrite Harg, Hhelp. reflexivity.
    + rewrite Harg, (commands_keys_not_help _ _ (dict_get_In _ _ _ Hget)), Hget.
      cbn [snd]. unfold child_result. rewrite Hrun. reflexivity.
Qed.

(** X6. Two all-ASCII arguments that differ only in the case of their
    letters are dispatched alike, whatever the Unicode tables of the
    interpreter and whatever the other arguments. *)
Theorem ascii_spellings_dispatch_alike
    (argv0 argv0' a b : str) (rest rest' : list str) :
  PyUnicode_IS_ASCII a = true ->
  PyUnicode_IS_ASCII b = true ->
  map Py_TOLOWER a = map Py_TOLOWER b ->
  main (argv0 :: a :: rest) = main (argv0' :: b :: rest').
Proof.
  intros Ha Hb E.
  apply (main_depends_on_lowered_argument _ _ a b); try reflexivity.
  unfold lower. rewrite Ha, Hb. exact E.
Qed.

(** X7. The listing of the help branch is exact: a line made of two
    spaces and a name is printed if and only if that name is a key of
    the table, that is, a command the dispatcher would run. *)
Theorem help_lists_exactly_the_table_keys (argv : list str) (arg k : str) :
  nth_error argv 1 = Some arg ->
  is_help (lower case_operation arg) = true ->
  In (Stdout ((lit "  " ++ k) ++ newline)) (fst (main argv))
  <-> dict_contains commands k = true.
Proof.
  intros Harg Hhelp. rewrite (main_help _ _ Harg Hhelp). cbn [fst].
  rewrite dict_contains_iff. unfold help_log. split.
  - intros [H|[H|H]]; try discriminate H.
    apply in_map_iff in H. destruct H as (x & E & Hx).
    injection E as E. try apply app_inv_tail in E. try apply app_inv_head in E.
    subst. exact Hx.
  - intros H. right. right.
    exact (in_map (fun cmd => Stdout ((lit "  " ++ cmd) ++ newline)) _ _ H).
Qed.

(** X8. For token lists that are not empty and whose tokens hold no
    space, the line printed by [run_command] determines the invocation:
    two such lists with the same echo are the same list. *)
Theorem echo_determines_space_free_invocation
    (command command' : list str) (cwd cwd' : option str) :
  command <> [] -> command' <> [] ->
  Forall space_free command -> Forall space_free command' ->
  stdout (fst (run_command command cwd)) = stdout (fst (run_command command' cwd')) ->
  command = command'.
Proof.
  intros Hc Hc' F F' E.
  assert (Hout : forall c w, stdout (fst (run_command c w))
                  = lit "Running: " ++ join (lit " ") c ++ newline).
  { intros c w. unfold run_command, subprocess_run.
    cbv [bind ret print].
    destruct (host_run c w true); cbn [fst stdout app];
      rewrite app_nil_r, <- app_assoc; reflexivity. }
  rewrite !Hout in E.
  apply app_inv_head, app_inv_tail in E.
  apply join_space_injective; assumption.
Qed.

(** ** The command table as an object *)

Lemma bindH_lift {A B} (m : M A) (k : A -> HeapM B) (h : heap) :
  bindH (lift m) k h
  = match m with
    | (log, Return a) =>
        match k a h with
        | None => None
        | Some (h2, (log', r)) => Some (h2, (log ++ log', r))
        end
    | (log, Raise e) => Some (h, (log, Raise e))
    end.
Proof. destruct m as [log [a|e]]; reflexivity. Qed.

Lemma bindH_lift_return {A B} (m : M A) (k : A -> HeapM B)
    (h h2 : heap) (log log' : list event) (a : A) (r : result B) :
  m = (log, Return a) -> k a h = Some (h2, (log', r)) ->
  bindH (lift m) k h = Some (h2, (log ++ log', r)).
Proof. intros -> Hk. unfold bindH, lift. rewrite Hk. reflexivity. Qed.

Lemma bindH_silent {A B} (m : HeapM A) (k : A -> HeapM B)
    (h h1 h2 : heap) (a : A) (out : M B) :
  m h = Some (h1, ret a) -> k a h1 = Some (h2, out) ->
  bindH m k h = Some (h2, out).
Proof.
  intros Hm Hk. unfold bindH. rewrite Hm. cbn [ret]. rewrite Hk.
  destruct out. reflexivity.
Qed.

Lemma nth_error_at (pre : heap) (x : object) (post : heap) :
  nth_error (pre ++ x :: post) (List.length pre) = Some x.
Proof. induction pre as [|y pre IH]; [reflexivity | exact IH]. Qed.

Lemma heap_set_at (pre : heap) (x y : object) (post : heap) :
  heap_set (pre ++ x :: post) (List.length pre) y = Some (pre ++ y :: post).
Proof.
  induction pre as [|z pre IH]; [reflexivity|].
  cbn [app List.length heap_set]. rewrite IH. reflexivity.
Qed.

(** Storing the items of a display: the dict object is updated in
    place, entry by entry, and one list object is added per item. *)
Lemma store_items_spec (items : list (str * list str)) :
  forall (pre : heap) (entries : dict addr) (lists : heap),
    store_items (List.length pre) items (pre ++ DictObject entries :: lists)
    = Some (pre ++ DictObject
                     (fold_left (fun d kv => dict_setitem d (fst kv) (snd kv))
                        (combine (map fst items)
                           (seq (S (List.length pre + List.length lists))
                              (List.length items)))
                        entries)
                   :: lists ++ map ListObject (map snd items),
            ret tt).
Proof.
  induction items as [|[k tokens] items IH]; intros pre entries lists.
  - cbn. rewrite app_nil_r. reflexivity.
  - cbn [store_items].
    eapply bindH_silent.
    + unfold list_display, alloc. reflexivity.
    + eapply bindH_silent.
      * unfold dict_setitem_ref.
        rewrite <- app_assoc. cbn [app].
        rewrite nth_error_at, heap_set_at. reflexivity.
      * rewrite IH. cbn [map fst snd List.length seq combine fold_left].
        rewrite !length_app. cbn [List.length].
        replace (List.length pre + S (List.length lists))
          with (S (List.length pre + List.length lists)) by lia.
        replace (List.length pre + (List.length lists + 1))
          with (S (List.length pre + List.length lists)) by lia.
        rewrite <- app_assoc. reflexivity.
Qed.

Lemma dict_display_ref_commands (h : heap) :
  dict_display_ref commands_display h
  = Some (h ++ table_objects (List.length h), ret (List.length h)).
Proof.
  unfold dict_display_ref.
  eapply bindH_silent; [unfold alloc; reflexivity|].
  eapply bindH_silent; [apply (store_items_spec commands_display h [] [])|].
  unfold retH, table_objects. rewrite Nat.add_0_r. reflexivity.
Qed.

Lemma deref_entries_seq (values : list (list str)) :
  forall (keys : list str) (pre post : heap),
    deref_entries (pre ++ map ListObject values ++ post)
      (combine keys (seq (List.length pre) (List.length values)))
    = Some (combine keys values).
Proof.
  induction values as [|v values IH]; intros [|k keys] pre post; try reflexivity.
  cbn [List.length seq combine map app deref_entries].
  unfold deref_list. rewrite nth_error_at.
  specialize (IH keys (pre ++ [ListObject v]) post).
  rewrite <- app_assoc, length_app in IH. cbn [app List.length] in IH.
  rewrite Nat.add_1_r in IH. rewrite IH. reflexivity.
Qed.

Lemma table_objects_value (h : heap) :
  nth_error (h ++ table_objects (List.length h)) (List.length h)
  = Some (DictObject (combine (map fst commands_display) (seq (S (List.length h)) 9)))
  /\ deref_dict (h ++ table_objects (List.length h)) (List.length h) = Some commands.
Proof.
  unfold deref_dict, table_objects. rewrite nth_error_at. split; [reflexivity|].
  pose proof (deref_entries_seq (map snd commands_display) (map fst commands_display)
                (h ++ [DictObject (combine (map fst commands_display)
                                     (seq (S (List.length h)) 9))]) []) as E.
  rewrite <- app_assoc, length_app, app_nil_r in E. cbn [app List.length] in E.
  rewrite Nat.add_1_r in E. exact E.
Qed.

(** Reading a dict object whose entries refer to lists of the heap
    gives what reading its value gives. *)
Lemma deref_entries_read (h : heap) (entries : dict addr) :
  forall table : dict (list str),
    deref_entries h entries = Some table ->
    dict_iter entries = dict_iter table
    /\ forall k : str,
         match dict_get entries k with
         | Some a => exists tokens, nth_error h a = Some (ListObject tokens)
                                    /\ dict_get table k = Some tokens
         | None => dict_get table k = None
         end.
Proof.
  induction entries as [|[k' a] entries IH]; intros table E; cbn [deref_entries] in E.
  - injection E as <-. split; [reflexivity | intros k; reflexivity].
  - unfold deref_list in E.
    destruct (nth_error h a) as [[tokens|?]|] eqn:Ea; try discriminate E.
    destruct (deref_entries h entries) as [table'|]; [|discriminate E].
    injection E as <-. destruct (IH table' eq_refl) as [Hkeys Hget]. split.
    + cbn [dict_iter map fst] in *. f_equal. exact Hkeys.
    + intros k. cbn [dict_get]. destruct (str_eqb k' k).
      * exists tokens. auto.
      * apply Hget.
Qed.

Lemma run_command_ref_spec (h : heap) (a : addr) (tokens : list str)
    (cwd : option str) :
  nth_error h a = Some (ListObject tokens) ->
  run_command_ref a cwd h = Some (h, run_command tokens cwd).
Proof.
  intros E.
  cbv [run_command_ref bindH load_list lift retH].
  rewrite E. cbv beta iota. rewrite E. cbv beta iota.
  cbv [run_command subprocess_run bind ret print].
  destruct (host_run tokens cwd true); reflexivity.
Qed.

Lemma table_entries_read (h : heap) :
  let entries : dict addr :=
    combine (map fst commands_display) (seq (S (List.length h)) 9) in
  dict_iter entries = dict_iter commands
  /\ forall k : str,
       match dict_get entries k with
       | Some a => exists tokens,
                     nth_error (h ++ table_objects (List.length h)) a
                     = Some (ListObject tokens)
                     /\ dict_get commands k = Some tokens
       | None => dict_get commands k = None
       end.
Proof.
  destruct (table_objects_value h) as [Hd Hv].
  unfold deref_dict in Hv. rewrite Hd in Hv.
  exact (deref_entries_read _ _ _ Hv).
Qed.

Lemma dict_iter_ref_table (h : heap) :
  dict_iter_ref (List.length h) (h ++ table_objects (List.length h))
  = Some (h ++ table_objects (List.length h), ret (dict_iter commands)).
Proof.
  destruct (table_objects_value h) as [Hd _].
  destruct (table_entries_read h) as [Hkeys _].
  unfold dict_iter_ref.
  eapply bindH_silent; [unfold load_dict; rewrite Hd; reflexivity|].
  cbv beta. unfold retH. rewrite Hkeys. reflexivity.
Qed.

Lemma dict_contains_ref_table (h : heap) (k : str) :
  dict_contains_ref (List.length h) k (h ++ table_objects (List.length h))
  = Some (h ++ table_objects (List.length h), ret (dict_contains commands k)).
Proof.
  destruct (table_objects_value h) as [Hd _].
  destruct (table_entries_read h) as [_ Hget]. specialize (Hget k).
  unfold dict_contains_ref.
  eapply bindH_silent; [unfold load_dict; rewrite Hd; reflexivity|].
  cbv beta. unfold retH, dict_contains.
  destruct (dict_get _ k) as [a|].
  - destruct Hget as (tokens & _ & ->). reflexivity.
  - rewrite Hget. reflexivity.
Qed.

Lemma dict_getitem_ref_table (h : heap) (k : str) (tokens : list str) :
  dict_get commands k = Some tokens ->
  exists a : addr,
    dict_getitem_ref (List.length h) k (h ++ table_objects (List.length h))
    = Some (h ++ table_objects (List.length h), ret a)
    /\ nth_error (h ++ table_objects (List.length h)) a = Some (ListObject tokens).
Proof.
  intros Hk.
  destruct (table_objects_value h) as [Hd _].
  destruct (table_entries_read h) as [_ Hget]. specialize (Hget k).
  match type of Hget with
  | match ?looked_up with _ => _ end => destruct looked_up as [a|] eqn:Ea
  end.
  - destruct Hget as (tokens' & Ha & Hk'). rewrite Hk in Hk'. injection Hk' as <-.
    exists a. split; [|exact Ha].
    unfold dict_getitem_ref.
    eapply bindH_silent; [unfold load_dict; rewrite Hd; reflexivity|].
    cbv beta. unfold lift, dict_getitem. rewrite Ea. reflexivity.
  - congruence.
Qed.

(** Over the heap the script does what [main] does, and leaves the heap
    it found, followed by the table if it got past the test on the
    number of arguments. *)
Lemma main_ref_spec (argv : list str) (h : heap) :
  main_ref argv h
  = Some (h ++ (if Nat.ltb (List.length argv) 2 then []
                else table_objects (List.length h)),
          main argv).
Proof.
  destruct (Nat.ltb (List.length argv) 2) eqn:Hlen.
  { unfold main_ref. rewrite Hlen.
    apply Nat.ltb_lt in Hlen.
    rewrite bindH_lift, app_nil_r, (main_no_argument _ Hlen). reflexivity. }
  destruct argv as [|argv0 [|arg rest]]; try discriminate Hlen. clear Hlen.
  rewrite main_spec. unfold main_ref.
  cbn [List.length Nat.ltb Nat.leb nth_error].
  destruct (is_help (lower case_operation arg)) eqn:Hhelp.
  - etransitivity.
    { eapply bindH_silent; [reflexivity|]. cbv beta zeta.
      eapply bindH_silent; [apply dict_display_ref_commands|]. cbv beta.
      rewrite Hhelp.
      eapply bindH_lift_return; [reflexivity|].
      eapply bindH_lift_return; [reflexivity|].
      eapply bindH_silent; [apply dict_iter_ref_table|]. cbv beta.
      eapply bindH_lift_return;
        [apply (for_each_print (fun cmd => lit "  " ++ cmd))|].
      reflexivity. }
    reflexivity.
  - destruct (dict_get commands (lower case_operation arg)) as [tokens|] eqn:Hget.
    + destruct (dict_getitem_ref_table h _ _ Hget) as (a & Hitem & Ha).
      etransitivity.
      * eapply bindH_silent; [reflexivity|]. cbv beta zeta.
        eapply bindH_silent; [apply dict_display_ref_commands|]. cbv beta.
        rewrite Hhelp.
        eapply bindH_silent; [apply dict_contains_ref_table|]. cbv beta.
        unfold dict_contains. rewrite Hget.
        eapply bindH_silent; [exact Hitem|]. cbv beta.
        exact (run_command_ref_spec _ _ _ _ Ha).
      * unfold run_command, subprocess_run, run_log, child_result, project_dir.
        cbv [bind ret print].
        destruct (host_run tokens _ true); reflexivity.
    + etransitivity.
      { eapply bindH_silent; [reflexivity|]. cbv beta zeta.
        eapply bindH_silent; [apply dict_display_ref_commands|]. cbv beta.
        rewrite Hhelp.
        eapply bindH_silent; [apply dict_contains_ref_table|]. cbv beta.
        unfold dict_contains. rewrite Hget.
        eapply bindH_lift_return; [reflexivity|].
        eapply bindH_lift_return; [reflexivity|].
        reflexivity. }
      reflexivity.
Qed.


End Run.

(** ** The script on the demonstration host *)

Local Abbreviation demo_main :=
  (main Demo.case_operation Demo.file Demo.abspath Demo.dirname Demo.run).
Local Abbreviation demo_script :=
  (script Demo.case_operation Demo.file Demo.abspath Demo.dirname Demo.run).
Local Abbreviation demo_dir := (project_dir Demo.file Demo.abspath Demo.dirname).
Local Abbreviation demo_lower := (lower Demo.case_operation).

Lemma demo_case_operation_stable (x : str) :
  PyUnicode_IS_ASCII x = false ->
  demo_lower (Demo.case_operation x) = Demo.case_operation x.
Proof.
  intros Hx. unfold lower, Demo.case_operation.
  rewrite map_Py_TOLOWER_is_ascii, Hx. apply map_Py_TOLOWER_idempotent.
Qed.

Lemma known_command_starts_documented_invocation_witness :
  In (lit "start", [lit "npm"; lit "run"; lit "swa:start"]) documented_mapping
  /\ children (fst (demo_main [lit "run.py"; lit "start"; lit "--verbose"]))
     = [Spawn [lit "npm"; lit "run"; lit "swa:start"] (Some (lit "/srv/portfolio")) true].
Proof.
  assert (H : In (lit "start", [lit "npm"; lit "run"; lit "swa:start"]) documented_mapping)
    by (do 7 right; left; reflexivity).
  split; [exact H|].
  exact (known_command_starts_documented_invocation
           Demo.case_operation Demo.file Demo.abspath Demo.dirname Demo.run
           (lit "run.py") (lit "start") [lit "npm"; lit "run"; lit "swa:start"]
           [lit "--verbose"] H).
Defined.

Lemma child_exit_code_passed_through_witness :
  nth_error [lit "run.py"; lit "Test"] 1 = Some (lit "Test")
  /\ dict_get commands (demo_lower (lit "Test")) = Some [lit "npm"; lit "run"; lit "test"]
  /\ Demo.run [lit "npm"; lit "run"; lit "test"] (Some demo_dir) true = inl 127%Z
  /\ snd (demo_main [lit "run.py"; lit "Test"]) = Return 127%Z
  /\ snd (demo_script [lit "run.py"; lit "Test"]) = Raise (SystemExit 127%Z).
Proof.
  split; [reflexivity|]. split; [reflexivity|]. split; [reflexivity|].
  exact (child_exit_code_passed_through
           Demo.case_operation Demo.file Demo.abspath Demo.dirname Demo.run
           [lit "run.py"; lit "Test"] (lit "Test") [lit "npm"; lit "run"; lit "test"]
           127%Z eq_refl eq_refl eq_refl).
Defined.

(** C3 as stated fails: the message names the lowered argument, so a
    token with a capital letter does not occur in the output. *)
Lemma unknown_token_not_echoed_verbatim :
  is_help (demo_lower (lit "Frobnicate")) = false
  /\ dict_contains commands (demo_lower (lit "Frobnicate")) = false
  /\ demo_main [lit "run.py"; lit "Frobnicate"]
     = ([ Stdout (lit "Unknown command: frobnicate" ++ newline);
          Stdout (lit "Run 'python run.py help' for available commands." ++ newline) ],
        Return 1%Z)
  /\ ~ includes (stdout (fst (demo_main [lit "run.py"; lit "Frobnicate"])))
         (lit "Frobnicate").
Proof.
  split; [reflexivity|]. split; [reflexivity|]. split; [reflexivity|].
  intros H. apply includes_In with (c := 70%N) in H; [|left; reflexivity].
  vm_compute in H.
  repeat (destruct H as [H|H]; [discriminate H|]). exact H.
Qed.

Lemma unknown_command_reported_lowered_witness :
  nth_error [lit "run.py"; lit "Frobnicate"] 1 = Some (lit "Frobnicate")
  /\ is_help (demo_lower (lit "Frobnicate")) = false
  /\ dict_contains commands (demo_lower (lit "Frobnicate")) = false
  /\ includes (stdout (fst (demo_main [lit "run.py"; lit "Frobnicate"])))
       (lit "frobnicate")
  /\ children (fst (demo_main [lit "run.py"; lit "Frobnicate"])) = [].
Proof.
  split; [reflexivity|]. split; [reflexivity|]. split; [reflexivity|].
  pose proof (unknown_command_reported_lowered
                Demo.case_operation Demo.file Demo.abspath Demo.dirname Demo.run
                [lit "run.py"; lit "Frobnicate"] (lit "Frobnicate")
                eq_refl eq_refl eq_refl) as (_ & Hinc & _ & Hnone).
  split; [exact Hinc | exact Hnone].
Defined.

Lemma help_prints_usage_and_commands_witness :
  nth_error [lit "run.py"; lit "--HELP"] 1 = Some (lit "--HELP")
  /\ In (lit "--help") help_aliases
  /\ same_up_to_case Demo.case_operation (lit "--HELP") (lit "--help")
  /\ stdout (fst (demo_main [lit "run.py"; lit "--HELP"]))
     = __doc__ ++ newline ++ command_listing
  /\ children (fst (demo_main [lit "run.py"; lit "--HELP"])) = [].
Proof.
  assert (Halias : In (lit "--help") help_aliases) by (right; left; reflexivity).
  split; [reflexivity|]. split; [exact Halias|]. split; [reflexivity|].
  exact (proj2 (help_prints_usage_and_commands
                  Demo.case_operation Demo.file Demo.abspath Demo.dirname Demo.run
                  [lit "run.py"; lit "--HELP"] (lit "--HELP") (lit "--help")
                  eq_refl Halias eq_refl)).
Defined.

Lemma no_argument_prints_usage_witness :
  List.length [lit "run.py"] < 2
  /\ demo_main [lit "run.py"] = ([Stdout (__doc__ ++ newline)], Return 0%Z)
  /\ stdout (fst (demo_main [lit "run.py"])) = __doc__ ++ newline
  /\ children (fst (demo_main [lit "run.py"])) = [].
Proof.
  assert (H : List.length [lit "run.py"] < 2) by (cbn [List.length]; lia).
  split; [exact H|].
  exact (no_argument_prints_usage
           Demo.case_operation Demo.file Demo.abspath Demo.dirname Demo.run
           [lit "run.py"] H).
Defined.

Lemma matching_is_case_insensitive_witness :
  (forall x : str,
      PyUnicode_IS_ASCII x = false ->
      demo_lower (Demo.case_operation x) = Demo.case_operation x)
  /\ demo_main [lit "run.py"; lit "BUILD"] = demo_main [lit "run.py"; lit "build"].
Proof.
  split; [exact demo_case_operation_stable|].
  exact (matching_is_case_insensitive
           Demo.case_operation Demo.file Demo.abspath Demo.dirname Demo.run
           demo_case_operation_stable (lit "run.py") (lit "BUILD") []).
Defined.

Lemma invocation_echoed_before_run_witness :
  nth_error [lit "run.py"; lit "install"] 1 = Some (lit "install")
  /\ dict_get commands (demo_lower (lit "install")) = Some [lit "npm"; lit "install"]
  /\ fst (demo_main [lit "run.py"; lit "install"])
     = [ Stdout (lit "Running: npm install" ++ newline);
         Spawn [lit "npm"; lit "install"] (Some (lit "/srv/portfolio")) true ].
Proof.
  split; [reflexivity|]. split; [reflexivity|].
  exact (proj1 (invocation_echoed_before_run
                  Demo.case_operation Demo.file Demo.abspath Demo.dirname Demo.run
                  [lit "run.py"; lit "install"] (lit "install")
                  [lit "npm"; lit "install"] eq_refl eq_refl)).
Defined.

Lemma later_arguments_ignored_witness :
  nth_error [lit "run.py"; lit "lint"; lit "--fix"] 1
  = nth_error [lit "./run.py"; lit "lint"; lit "src"; lit "-q"] 1
  /\ demo_main [lit "run.py"; lit "lint"; lit "--fix"]
     = demo_main [lit "./run.py"; lit "lint"; lit "src"; lit "-q"].
Proof.
  split; [reflexivity|].
  exact (proj1 (later_arguments_ignored
                  Demo.case_operation Demo.file Demo.abspath Demo.dirname Demo.run
                  [lit "run.py"; lit "lint"; lit "--fix"]
                  [lit "./run.py"; lit "lint"; lit "src"; lit "-q"] eq_refl)).
Defined.

(** ** Dependence on the host *)

(** X9. A run that starts no child (usage, help, unknown command) is
    the same wherever the script is installed and whatever the host
    would do with a child: these branches look neither at the path of
    the script nor at the process facilities. *)
Theorem run_without_child_ignores_host
    (case_operation : str -> str)
    (file file' : str) (abspath abspath' dirname dirname' : str -> str)
    (run run' : list str -> option str -> bool -> Z + host_error)
    (argv : list str) :
  children (fst (main case_operation file abspath dirname run argv)) = [] ->
  main case_operation file abspath dirname run argv
  = main case_operation file' abspath' dirname' run' argv.
Proof.
  rewrite !main_spec.
  destruct (nth_error argv 1) as [arg|]; [|reflexivity].
  destruct (is_help (lower case_operation arg)); [reflexivity|].
  destruct (dict_get commands (lower case_operation arg)); [|reflexivity].
  cbn. discriminate.
Qed.

(** X10. What the script prints and which child it starts never depend
    on how a child ends: nothing is printed or started after the child,
    whether it succeeds, fails or cannot be run. *)
Theorem events_independent_of_child_outcome
    (case_operation : str -> str)
    (file : str) (abspath dirname : str -> str)
    (run run' : list str -> option str -> bool -> Z + host_error)
    (argv : list str) :
  fst (script case_operation file abspath dirname run argv)
  = fst (script case_operation file abspath dirname run' argv).
Proof.
  rewrite !script_spec, !main_spec. cbn [fst].
  destruct (nth_error argv 1) as [arg|]; [|reflexivity].
  destruct (is_help (lower case_operation arg)); [reflexivity|].
  destruct (dict_get commands (lower case_operation arg)); reflexivity.
Qed.

(** ** The further properties on the demonstration host *)

Local Abbreviation broken_script :=
  (script Demo.case_operation Demo.file Demo.abspath Demo.dirname Demo.broken_run).

Lemma child_runs_in_project_dir_after_echo_witness :
  In (Spawn [lit "npm"; lit "run"; lit "preview"] (Some (lit "/srv/portfolio")) true)
     (fst (demo_main [lit "run.py"; lit "Preview"]))
  /\ Some (lit "/srv/portfolio") = Some demo_dir
  /\ fst (demo_main [lit "run.py"; lit "Preview"])
     = [ Stdout (lit "Running: npm run preview" ++ newline);
         Spawn [lit "npm"; lit "run"; lit "preview"] (Some (lit "/srv/portfolio")) true ].
Proof.
  assert (H : In (Spawn [lit "npm"; lit "run"; lit "preview"]
                    (Some (lit "/srv/portfolio")) true)
                 (fst (demo_main [lit "run.py"; lit "Preview"])))
    by (right; left; reflexivity).
  split; [exact H|].
  pose proof (child_runs_in_project_dir_after_echo
                Demo.case_operation Demo.file Demo.abspath Demo.dirname Demo.run
                [lit "run.py"; lit "Preview"] _ _ _ H) as (Hcwd & _ & Hlog).
  split; [exact Hcwd | exact Hlog].
Defined.

Lemma host_failure_surfaces_unchanged_witness :
  nth_error [lit "run.py"; lit "dev"] 1 = Some (lit "dev")
  /\ dict_get commands (demo_lower (lit "dev")) = Some [lit "npm"; lit "run"; lit "dev"]
  /\ Demo.broken_run [lit "npm"; lit "run"; lit "dev"] (Some demo_dir) true
     = inr (OSError 2%Z)
  /\ broken_script [lit "run.py"; lit "dev"]
     = ([ Stdout (lit "Running: npm run dev" ++ newline);
          Spawn [lit "npm"; lit "run"; lit "dev"] (Some (lit "/srv/portfolio")) true ],
        Raise (HostFailure (OSError 2%Z))).
Proof.
  split; [reflexivity|]. split; [reflexivity|]. split; [reflexivity|].
  exact (host_failure_surfaces_unchanged
           Demo.case_operation Demo.file Demo.abspath Demo.dirname Demo.broken_run
           [lit "run.py"; lit "dev"] (lit "dev") [lit "npm"; lit "run"; lit "dev"]
           (OSError 2%Z) eq_refl eq_refl eq_refl).
Defined.

Lemma ascii_spellings_dispatch_alike_witness :
  PyUnicode_IS_ASCII (lit "Test:Coverage") = true
  /\ PyUnicode_IS_ASCII (lit "TEST:coverage") = true
  /\ map Py_TOLOWER (lit "Test:Coverage") = map Py_TOLOWER (lit "TEST:coverage")
  /\ demo_main [lit "run.py"; lit "Test:Coverage"]
     = demo_main [lit "./run.py"; lit "TEST:coverage"; lit "--watch"].
Proof.
  split; [reflexivity|]. split; [reflexivity|]. split; [reflexivity|].
  exact (ascii_spellings_dispatch_alike
           Demo.case_operation Demo.file Demo.abspath Demo.dirname Demo.run
           (lit "run.py") (lit "./run.py") (lit "Test:Coverage") (lit "TEST:coverage")
           [] [lit "--watch"] eq_refl eq_refl eq_refl).
Defined.

Lemma help_lists_exactly_the_table_keys_witness :
  nth_error [lit "run.py"; lit "-H"] 1 = Some (lit "-H")
  /\ is_help (demo_lower (lit "-H")) = true
  /\ (In (Stdout ((lit "  " ++ lit "format") ++ newline))
         (fst (demo_main [lit "run.py"; lit "-H"]))
      <-> dict_contains commands (lit "format") = true)
  /\ (In (Stdout ((lit "  " ++ lit "deploy") ++ newline))
         (fst (demo_main [lit "run.py"; lit "-H"]))
      <-> dict_contains commands (lit "deploy") = true).
Proof.
  split; [reflexivity|]. split; [reflexivity|]. split.
  - exact (help_lists_exactly_the_table_keys
             Demo.case_operation Demo.file Demo.abspath Demo.dirname Demo.run
             [lit "run.py"; lit "-H"] (lit "-H") (lit "format") eq_refl eq_refl).
  - exact (help_lists_exactly_the_table_keys
             Demo.case_operation Demo.file Demo.abspath Demo.dirname Demo.run
             [lit "run.py"; lit "-H"] (lit "-H") (lit "deploy") eq_refl eq_refl).
Defined.

Lemma space_free_npm : space_free (lit "npm").
Proof. intros H. repeat (destruct H as [H|H]; [discriminate H|]). exact H. Qed.

Lemma space_free_install : space_free (lit "install").
Proof. intros H. repeat (destruct H as [H|H]; [discriminate H|]). exact H. Qed.

Lemma echo_determines_space_free_invocation_witness :
  [lit "npm"; lit "install"] <> []
  /\ Forall space_free [lit "npm"; lit "install"]
  /\ stdout (fst (run_command Demo.run [lit "npm"; lit "install"] None))
     = stdout (fst (run_command Demo.run [lit "npm"; lit "install"]
                      (Some (lit "/srv/portfolio"))))
  /\ [lit "npm"; lit "install"] = [lit "npm"; lit "install"].
Proof.
  assert (Hne : [lit "npm"; lit "install"] <> []) by discriminate.
  assert (Hsf : Forall space_free [lit "npm"; lit "install"])
    by (repeat constructor; [exact space_free_npm | exact space_free_install]).
  split; [exact Hne|]. split; [exact Hsf|]. split; [reflexivity|].
  exact (echo_determines_space_free_invocation
           Demo.run [lit "npm"; lit "install"] [lit "npm"; lit "install"]
           None (Some (lit "/srv/portfolio")) Hne Hne Hsf Hsf eq_refl).
Defined.

Lemma run_without_child_ignores_host_witness :
  children (fst (demo_main [lit "run.py"; lit "deploy"])) = []
  /\ demo_main [lit "run.py"; lit "deploy"]
     = main Demo.case_operation (lit "C:/work/run.py") (fun p => p)
         (fun _ => lit "C:/work") Demo.broken_run [lit "run.py"; lit "deploy"].
Proof.
  split; [reflexivity|].
  exact (run_without_child_ignores_host
           Demo.case_operation Demo.file (lit "C:/work/run.py")
           Demo.abspath (fun p => p) Demo.dirname (fun _ => lit "C:/work")
           Demo.run Demo.broken_run [lit "run.py"; lit "deploy"] eq_refl).
Defined.

(** The table on the demonstration host, from an empty heap: a run with
    a command leaves the dict and its nine lists, a run without argument
    leaves nothing. *)
Lemma demo_heap_after_build :
  main_ref Demo.case_operation Demo.file Demo.abspath Demo.dirname Demo.run
    [lit "run.py"; lit "build"] []
  = Some (table_objects 0, demo_main [lit "run.py"; lit "build"])
  /\ deref_dict (table_objects 0) 0 = Some commands
  /\ main_ref Demo.case_operation Demo.file Demo.abspath Demo.dirname Demo.run
       [lit "run.py"] []
     = Some ([], demo_main [lit "run.py"]).
Proof. split; [reflexivity|]. split; reflexivity. Qed.
